(** * A shallow embedding of [pty_bridge.py]

    The bridge allocates a PTY pair, spawns the shell on the slave side,
    and multiplexes its own stdin and the PTY master in a [select] loop,
    intercepting [###RESIZE###<cols>,<rows>] control messages on stdin.

    Python's [bytes] are modelled as lists of 8-bit [ascii] characters;
    the operating system (reads, writes, [ioctl], [kill], process exit) is
    an explicit environment script, and the program's observable effects
    are a trace of [event]s written by a small writer/exception monad. *)

From Stdlib Require Import Ascii String List ZArith Bool Lia.
Import ListNotations.
Open Scope Z_scope.

(* ------------------------------------------------------------------ *)
(** ** Bytes and text *)

Definition bytes := list ascii.

(** Byte-string literals: [b "abc"] is Python's [b'abc']. *)
Definition b (s : string) : bytes := list_ascii_of_string s.

Fixpoint startswith (pre s : bytes) : bool :=
  match pre, s with
  | [], _ => true
  | c :: pre', d :: s' => Ascii.eqb c d && startswith pre' s'
  | _ :: _, [] => false
  end.

(** The reserved sentinel [b'###RESIZE###'] (12 bytes). *)
Definition RESIZE_PREFIX : bytes := b "###RESIZE###".

(** A Python [str] is a sequence of Unicode code points. *)
Definition text := list Z.

(** The value of a byte. *)
Definition byte_val (c : ascii) : Z := Z.of_N (N_of_ascii c).

Definition in_range (lo hi v : Z) : bool := (lo <=? v) && (v <=? hi).

Definition cons_opt (v : Z) (o : option text) : option text :=
  match o with Some t => Some (v :: t) | None => None end.

(** [bytes.decode()]: Python's strict [utf-8] codec.  A code point is
    encoded in one to four bytes; overlong forms, surrogates
    ([U+D800]..[U+DFFF]), values above [U+10FFFF] and truncated sequences
    raise [UnicodeDecodeError] ([None]). *)
Fixpoint decode (d : bytes) : option text :=
  match d with
  | [] => Some []
  | c1 :: r1 =>
      let v1 := byte_val c1 in
      if v1 <? 128 then cons_opt v1 (decode r1)
      else if in_range 194 223 v1 then
        match r1 with
        | c2 :: r2 =>
            if in_range 128 191 (byte_val c2)
            then cons_opt ((v1 - 192) * 64 + (byte_val c2 - 128)) (decode r2)
            else None
        | [] => None
        end
      else if in_range 224 239 v1 then
        match r1 with
        | c2 :: c3 :: r3 =>
            let lo := if v1 =? 224 then 160 else 128 in
            let hi := if v1 =? 237 then 159 else 191 in
            if in_range lo hi (byte_val c2) && in_range 128 191 (byte_val c3)
            then cons_opt ((v1 - 224) * 4096 + (byte_val c2 - 128) * 64
                           + (byte_val c3 - 128)) (decode r3)
            else None
        | _ => None
        end
      else if in_range 240 244 v1 then
        match r1 with
        | c2 :: c3 :: c4 :: r4 =>
            let lo := if v1 =? 240 then 144 else 128 in
            let hi := if v1 =? 244 then 143 else 191 in
            if in_range lo hi (byte_val c2) && in_range 128 191 (byte_val c3)
               && in_range 128 191 (byte_val c4)
            then cons_opt ((v1 - 240) * 262144 + (byte_val c2 - 128) * 4096
                           + (byte_val c3 - 128) * 64 + (byte_val c4 - 128)) (decode r4)
            else None
        | _ => None
        end
      else None
  end.

(** [Py_UNICODE_ISSPACE], the whitespace of [str.strip()] and
    [str.isspace()]: [\t \n \v \f \r], the separators [\x1c]..[\x1f], the
    space, [U+0085], the no-break space [U+00A0], [U+1680],
    [U+2000]..[U+200A], [U+2028], [U+2029], [U+202F], [U+205F] and
    [U+3000]. *)
Definition is_uspace (c : Z) : bool :=
  in_range 0x09 0x0D c || in_range 0x1C 0x20 c || (c =? 0x85) || (c =? 0xA0)
  || (c =? 0x1680) || in_range 0x2000 0x200A c || (c =? 0x2028) || (c =? 0x2029)
  || (c =? 0x202F) || (c =? 0x205F) || (c =? 0x3000).

(** [Py_ISSPACE], the C-level whitespace [int()] skips around the digits:
    [\t \n \v \f \r] and the space only. *)
Definition is_cspace (c : Z) : bool := in_range 0x09 0x0D c || (c =? 0x20).

(** A whitespace byte of the ASCII range (what [str.strip()] removes
    there): [\t \n \v \f \r], [\x1c]..[\x1f] and the space. *)
Definition is_space (c : ascii) : bool :=
  let n := N_of_ascii c in
  ((9 <=? n) && (n <=? 13))%N || ((28 <=? n) && (n <=? 32))%N.

Fixpoint lstrip_by (p : Z -> bool) (s : text) : text :=
  match s with
  | c :: s' => if p c then lstrip_by p s' else s
  | [] => []
  end.

Definition strip_by (p : Z -> bool) (s : text) : text :=
  rev (lstrip_by p (rev (lstrip_by p s))).

(** [str.strip()]. *)
Definition strip (s : text) : text := strip_by is_uspace s.

(** [str.split(',')]: always at least one field. *)
Fixpoint split_comma (s : text) : list text :=
  match s with
  | [] => [[]]
  | c :: s' =>
      if c =? 0x2C then [] :: split_comma s'
      else match split_comma s' with
           | f :: fs => (c :: f) :: fs
           | [] => [[c]]
           end
  end.

(** The code points of the digit zero of each run of decimal digits
    (general category Nd) of the Unicode database of Python 3.12 and 3.13
    (Unicode 15.0 and 15.1); each run holds the digits 0 to 9 in order. *)
Definition decimal_zeros : list Z :=
  [0x30; 0x660; 0x6F0; 0x7C0; 0x966; 0x9E6; 0xA66; 0xAE6; 0xB66; 0xBE6;
   0xC66; 0xCE6; 0xD66; 0xDE6; 0xE50; 0xED0; 0xF20; 0x1040; 0x1090; 0x17E0;
   0x1810; 0x1946; 0x19D0; 0x1A80; 0x1A90; 0x1B50; 0x1BB0; 0x1C40; 0x1C50; 0xA620;
   0xA8D0; 0xA900; 0xA9D0; 0xA9F0; 0xAA50; 0xABF0; 0xFF10; 0x104A0; 0x10D30; 0x11066;
   0x110F0; 0x11136; 0x111D0; 0x112F0; 0x11450; 0x114D0; 0x11650; 0x116C0; 0x11730; 0x118E0;
   0x11950; 0x11C50; 0x11D50; 0x11DA0; 0x11F50; 0x16A60; 0x16AC0; 0x16B50; 0x1D7CE; 0x1D7D8;
   0x1D7E2; 0x1D7EC; 0x1D7F6; 0x1E140; 0x1E2F0; 0x1E4F0; 0x1E950; 0x1FBF0].

(** [Py_UNICODE_TODECIMAL]. *)
Fixpoint decimal_in (zs : list Z) (c : Z) : option Z :=
  match zs with
  | z :: zs' => if in_range z (z + 9) c then Some (c - z) else decimal_in zs' c
  | [] => None
  end.

Definition decimal_value (c : Z) : option Z := decimal_in decimal_zeros c.

(** [_PyUnicode_TransformDecimalAndSpaceToASCII], the first step of
    [int(s)] for a [str]: a character below [U+007F] is kept, any other
    whitespace becomes a space, any other decimal digit becomes the ASCII
    digit of the same value; any other character makes the literal
    invalid ([None]). *)
Fixpoint to_ascii_digits (s : text) : option text :=
  match s with
  | [] => Some []
  | c :: s' =>
      let c' := if c <? 127 then Some c
                else if is_uspace c then Some 0x20
                else option_map (fun d => 0x30 + d) (decimal_value c) in
      match c' with
      | Some a => cons_opt a (to_ascii_digits s')
      | None => None
      end
  end.

Definition digit_value (c : Z) : option Z :=
  if in_range 0x30 0x39 c then Some (c - 0x30) else None.

(** Decimal digits with single underscores between digits, the grammar of
    a base-10 literal in [PyLong_FromString]: [digit (["_"] digit)*].
    [acc] is the value of the digits read so far. *)
Fixpoint digits_after (acc : Z) (s : text) : option Z :=
  match s with
  | [] => Some acc
  | c :: s' =>
      match digit_value c with
      | Some v => digits_after (10 * acc + v) s'
      | None =>
          if c =? 0x5F then
            match s' with
            | c' :: s'' =>
                match digit_value c' with
                | Some v => digits_after (10 * acc + v) s''
                | None => None
                end
            | [] => None
            end
          else None
      end
  end.

Definition parse_digits (s : text) : option Z :=
  match s with
  | c :: s' =>
      match digit_value c with
      | Some v => digits_after v s'
      | None => None
      end
  | [] => None
  end.

(** [int(s)] for a [str] argument (base 10, [PyLong_FromUnicodeObject]):
    the transformation to ASCII, then [PyLong_FromString], which skips
    [Py_ISSPACE] whitespace around an optional sign and the digits and
    must reach the end of the string; [None] is [ValueError].  Python
    (3.11 and later) also refuses literals of more than 4300 digits; a
    chunk read by the bridge has at most 1024 bytes, so this limit is not
    modelled. *)
Definition py_int (s : text) : option Z :=
  match to_ascii_digits s with
  | Some a =>
      match strip_by is_cspace a with
      | c :: s' =>
          if c =? 0x2D then option_map Z.opp (parse_digits s')
          else if c =? 0x2B then parse_digits s'
          else parse_digits (c :: s')
      | [] => None
      end
  | None => None
  end.

(** [[int(x) for x in fields]]: the first failing field raises. *)
Fixpoint map_int (fs : list text) : option (list Z) :=
  match fs with
  | [] => Some []
  | f :: fs' =>
      match py_int f with
      | Some v =>
          match map_int fs' with
          | Some vs => Some (v :: vs)
          | None => None
          end
      | None => None
      end
  end.

(** Lines 51-52:
    [payload = data[len('###RESIZE###'):].decode().strip()]
    [cols, rows = [int(x) for x in payload.split(',')]]
    [None] when any of these raises (decoding, [int], or unpacking a list
    whose length is not 2). *)
Definition parse_resize (data : bytes) : option (Z * Z) :=
  match decode (skipn (length RESIZE_PREFIX) data) with
  | Some txt =>
      match map_int (split_comma (strip txt)) with
      | Some [cols; rows] => Some (cols, rows)
      | _ => None
      end
  | None => None
  end.

(** Bytes given by their values. *)
Definition bs (l : list Z) : bytes := map (fun v => ascii_of_N (Z.to_N v)) l.

Example parse_resize_80_24 :
  parse_resize (b "###RESIZE###80,24" ++ bs [10]) = Some (80, 24).
Proof. reflexivity. Qed.
Example parse_resize_neg : parse_resize (b "###RESIZE### -1, +0_7 ") = Some (-1, 7).
Proof. reflexivity. Qed.
Example parse_resize_bad : parse_resize (b "###RESIZE###80x24") = None.
Proof. reflexivity. Qed.
Example parse_resize_three : parse_resize (b "###RESIZE###1,2,3") = None.
Proof. reflexivity. Qed.
(** Arabic-Indic digits ([U+0668 U+0660], i.e. 80) and a trailing no-break
    space are accepted, as [int()] and [str.strip()] do. *)
Example parse_resize_unicode :
  parse_resize (b "###RESIZE###" ++ bs [217; 168; 217; 160] ++ b ",24" ++ bs [194; 160])
  = Some (80, 24).
Proof. reflexivity. Qed.
(** [\x1c] is stripped by [str.strip()] but not skipped by [int()]. *)
Example parse_resize_sep :
  parse_resize (b "###RESIZE###" ++ bs [28] ++ b "80,24") = Some (80, 24) /\
  parse_resize (b "###RESIZE###80," ++ bs [28] ++ b "24") = None.
Proof. split; reflexivity. Qed.
(** Invalid UTF-8 (a lone [0xff], an encoded surrogate) is refused. *)
Example parse_resize_bad_utf8 :
  parse_resize (b "###RESIZE###80,24" ++ bs [255]) = None /\
  parse_resize (b "###RESIZE###80,24" ++ bs [237; 160; 128]) = None.
Proof. split; reflexivity. Qed.

(** Python's [str(n)] for integers, the textual form a caller writes into
    a resize message.  [dec_aux] prepends the decimal digits of [n]
    (least significant first) to [acc]; the fuel is the binary length of
    [n], which bounds its decimal length. *)
Definition digit_char (v : Z) : ascii := ascii_of_N (Z.to_N (48 + v)).

Fixpoint dec_aux (fuel : nat) (n : Z) (acc : bytes) : bytes :=
  match fuel with
  | O => acc
  | S f =>
      let acc' := digit_char (n mod 10) :: acc in
      if n <? 10 then acc' else dec_aux f (n / 10) acc'
  end.

Definition str_N (n : Z) : bytes := dec_aux (S (Z.to_nat (Z.log2 n))) n [].

Definition str_Z (z : Z) : bytes :=
  if z <? 0 then "-"%char :: str_N (- z) else str_N z.

Example str_Z_examples :
  str_Z 80 = b "80" /\ str_Z 0 = b "0" /\ str_Z (-32768) = b "-32768".
Proof. repeat split; reflexivity. Qed.

(* ------------------------------------------------------------------ *)
(** ** The [struct winsize] record *)

Record winsize := mk_winsize {
  ws_row : Z; ws_col : Z; ws_xpixel : Z; ws_ypixel : Z
}.

Definition short_ok (v : Z) : bool := (-32768 <=? v) && (v <=? 32767).

(** [struct.pack('hhhh', rows, cols, 0, 0)]: each field is a signed
    16-bit [short]; a value out of range raises [struct.error]. *)
Definition pack_hhhh (r c x y : Z) : option winsize :=
  if short_ok r && short_ok c && short_ok x && short_ok y
  then Some (mk_winsize r c x y) else None.

(* ------------------------------------------------------------------ *)
(** ** Effects and exceptions *)

Inductive signal := SIGINT | SIGWINCH.

(** The effects the bridge has on the outside world, in order.  A system
    call that fails leaves no event. *)
Inductive event :=
| EOpenPty (master slave : Z)                      (* pty.openpty() *)
| ESpawn (argv : list string) (cwd : string) (pid : Z)  (* Popen *)
| ECloseFd (fd : Z)                                (* os.close(fd) *)
| EWriteMaster (data : bytes)                      (* os.write(master, data) *)
| ESetWinsize (fd : Z) (ws : winsize)              (* ioctl(fd, TIOCSWINSZ, ..) *)
| EKill (target : Z) (sig : signal)                (* os.kill(target, sig) *)
| EWriteStdout (data : bytes)                      (* sys.stdout.buffer.write *)
| EFlushStdout                                     (* sys.stdout.flush() *)
| ETerminate (pid : Z)                             (* process.terminate() *)
| EWait (pid : Z).                                 (* process.wait() *)

(** The exception classes the code can raise or catch.
    [UnicodeDecodeError] is a [ValueError]; [FileNotFoundError] and
    [PermissionError] are [OSError]s. *)
Inductive exn := OSError | ValueError | StructError | KeyboardInterrupt.

(** [except Exception] does not catch [KeyboardInterrupt]. *)
Definition is_Exception (e : exn) : bool :=
  match e with KeyboardInterrupt => false | _ => true end.
Definition is_OSError (e : exn) : bool :=
  match e with OSError => true | _ => false end.
Definition is_KeyboardInterrupt (e : exn) : bool :=
  match e with KeyboardInterrupt => true | _ => false end.

Inductive outcome (A : Type) := Normal (a : A) | Raise (e : exn).
Arguments Normal {A} a.
Arguments Raise {A} e.

(** A writer/exception monad: the effects performed, and how the
    computation ended. *)
Definition M (A : Type) : Type := (list event * outcome A)%type.

Definition ret {A} (a : A) : M A := ([], Normal a).
Definition raise {A} (e : exn) : M A := ([], Raise e).
Definition bind {A B} (m : M A) (k : A -> M B) : M B :=
  match m with
  | (l, Normal a) => let (l', r) := k a in (l ++ l', r)
  | (l, Raise e) => (l, Raise e)
  end.

Notation "x <- m ;; k" := (bind m (fun x => k))
  (at level 61, m at next level, right associativity).
Notation "m ;; k" := (bind m (fun _ : unit => k))
  (at level 61, right associativity).

Definition emit (e : event) : M unit := ([e], Normal tt).

(** A system call whose success is given by the environment. *)
Definition os_call (ok : bool) (e : event) : M unit :=
  if ok then emit e else raise OSError.

(** [try: m except C: h] for the exception classes [catches]. *)
Definition try_except {A} (m : M A) (catches : exn -> bool) (h : exn -> M A) : M A :=
  match m with
  | (l, Raise e) => if catches e then let (l', r) := h e in (l ++ l', r) else (l, Raise e)
  | _ => m
  end.

(** [try: m finally: fin]: [fin] always runs; an exception it raises
    replaces the outcome of [m]. *)
Definition try_finally {A} (m : M A) (fin : M unit) : M A :=
  let (l, r) := m in
  let (l', r') := fin in
  (l ++ l', match r' with Raise e => Raise e | Normal _ => r end).

(** The bytes written to the PTY master, i.e. delivered to the child's
    terminal input. *)
Definition forwarded (tr : list event) : bytes :=
  flat_map (fun e => match e with EWriteMaster d => d | _ => [] end) tr.

(* ------------------------------------------------------------------ *)
(** ** The multiplex loop (lines 37-74) *)

(** [continue] and [break] inside [for fd in ready]. *)
Inductive ctl := Continue | Break.

(** What the operating system answers to the calls made for one stdin
    chunk: whether [ioctl] and [os.kill] (resize path) and [os.write]
    (forwarding path) succeed. *)
Record os_answers := mk_answers { ioctl_ok : bool; kill_ok : bool; write_ok : bool }.

(** One readable stdin: [os.read] raises, or returns a chunk of at most
    1024 bytes. *)
Inductive stdin_ev :=
| StdinReadError
| StdinData (data : bytes) (ans : os_answers).

(** One readable master: [os.read] raises, or returns a chunk.  With
    [MasterData data stdout_ok], writing the chunk to stdout succeeds when
    [stdout_ok] holds, and so does the flush after it; with
    [MasterFlushError data] the write succeeds and [sys.stdout.flush()]
    raises (e.g. [BrokenPipeError]). *)
Inductive master_ev :=
| MasterReadError
| MasterData (data : bytes) (stdout_ok : bool)
| MasterFlushError (data : bytes).

(** Lines 51-54, the body of the inner [try]. *)
Definition apply_resize (master pid : Z) (data : bytes) (a : os_answers) : M unit :=
  match parse_resize data with
  | None => raise ValueError
  | Some (cols, rows) =>
      match pack_hhhh rows cols 0 0 with
      | None => raise StructError
      | Some ws =>
          os_call (ioctl_ok a) (ESetWinsize master ws) ;;
          os_call (kill_ok a) (EKill pid SIGWINCH)
      end
  end.

(** Lines 47-58, after [data = os.read(...)]. *)
Definition stdin_body (master pid : Z) (data : bytes) (a : os_answers) : M ctl :=
  match data with
  | [] => ret Continue
  | _ =>
      if startswith RESIZE_PREFIX data then
        try_except (apply_resize master pid data a) is_Exception (fun _ => ret tt) ;;
        ret Continue
      else
        os_call (write_ok a) (EWriteMaster data) ;;
        ret Continue
  end.

(** Lines 43-60: the stdin branch, with [except OSError: break]. *)
Definition handle_stdin (master pid : Z) (ev : stdin_ev) : M ctl :=
  try_except
    (match ev with
     | StdinReadError => raise OSError
     | StdinData data a => stdin_body master pid data a
     end)
    is_OSError (fun _ => ret Break).

(** Lines 64-66: [if data:] write the chunk to stdout, then flush. *)
Definition relay (data : bytes) (write_ok flush_ok : bool) : M ctl :=
  match data with
  | [] => ret Continue
  | _ => os_call write_ok (EWriteStdout data) ;; os_call flush_ok EFlushStdout ;;
         ret Continue
  end.

(** Lines 62-70: the master branch. *)
Definition handle_master (ev : master_ev) : M ctl :=
  try_except
    (match ev with
     | MasterReadError => raise OSError
     | MasterData data ok => relay data ok true
     | MasterFlushError data => relay data true false
     end)
    is_OSError (fun _ => ret Break).

(** One pass of the [while] loop after [select]: the environment reports
    an interrupt ([KeyboardInterrupt] raised while waiting in [select]), or
    the ready list, which [select] returns in the order [[sys.stdin,
    master]].  The model lets the interrupt arrive during [select], where
    the loop waits; an interrupt in the middle of a pass (during a read or
    a write) is not modelled. *)
Inductive iteration :=
| Interrupt
| Ready (si : option stdin_ev) (mi : option master_ev).

(** Line 42: [for fd in ready]; a [break] skips the remaining sources of
    this pass only. *)
Definition for_ready (master pid : Z) (si : option stdin_ev) (mi : option master_ev)
  : M unit :=
  c <- match si with
       | Some e => handle_stdin master pid e
       | None => ret Continue
       end ;;
  match c with
  | Break => ret tt
  | Continue =>
      match mi with
      | Some e => _ <- handle_master e ;; ret tt
      | None => ret tt
      end
  end.

(** Line 38: [while process.poll() is None].  The script lists the passes
    made while the child is alive; its end is the pass in which [poll()]
    reports that the child has exited. *)
Fixpoint multiplex (master pid : Z) (its : list iteration) : M unit :=
  match its with
  | [] => ret tt
  | Interrupt :: _ => raise KeyboardInterrupt
  | Ready si mi :: rest => for_ready master pid si mi ;; multiplex master pid rest
  end.

(* ------------------------------------------------------------------ *)
(** ** Session establishment and teardown (lines 12-79) *)

(** The environment of one session: the descriptors [pty.openpty()]
    returns (or its failure), the child's pid (or [Popen]'s failure), the
    passes of the loop, and the success of the calls made on the way out. *)
Record session_env := mk_env {
  openpty_result : option (Z * Z);
  popen_result : option Z;
  script : list iteration;
  sigint_ok : bool;
  close_ok : bool;
  terminate_ok : bool
}.

(** Lines 76-79, the [finally] block. *)
Definition teardown (env : session_env) (master pid : Z) : M unit :=
  os_call (close_ok env) (ECloseFd master) ;;
  os_call (terminate_ok env) (ETerminate pid) ;;
  emit (EWait pid).

(** Lines 12-79.  [os.close(slave)] (line 35), which closes a descriptor
    [pty.openpty()] has just returned, is modelled as succeeding; a second
    [KeyboardInterrupt] during the [except] handler or the [finally] block
    is not modelled. *)
Definition create_pty_session (env : session_env) (shell_command : list string)
    (cwd : string) : M unit :=
  match openpty_result env with
  | None => raise OSError
  | Some (master, slave) =>
      emit (EOpenPty master slave) ;;
      match popen_result env with
      | None => raise OSError
      | Some pid =>
          emit (ESpawn shell_command cwd pid) ;;
          emit (ECloseFd slave) ;;
          try_finally
            (try_except (multiplex master pid (script env)) is_KeyboardInterrupt
               (fun _ => os_call (sigint_ok env) (EKill pid SIGINT)))
            (teardown env master pid)
      end
  end.

(* ------------------------------------------------------------------ *)
(** ** The command line (lines 81-95) *)

Inductive main_action :=
| Usage                                            (* print usage; exit(1) *)
| RunSession (shell_command : list string) (cwd : string).

Definition main (argv : list string) : main_action :=
  match argv with
  | _ :: shell :: cwd :: rest =>
      let command := match rest with
                     | [] => ""%string
                     | _ => String.concat " " rest
                     end in
      if String.eqb command "" then RunSession [shell; "-l"%string] cwd
      else RunSession [shell; "-l"%string; "-c"%string; command] cwd
  | _ => Usage
  end.

Example main_echo_hi :
  main ["pty_bridge.py"; "/bin/sh"; "/tmp"; "echo"; "hi"]%string
  = RunSession ["/bin/sh"; "-l"; "-c"; "echo hi"]%string "/tmp"%string.
Proof. reflexivity. Qed.

(** A resize control message as a caller writes it:
    [b'###RESIZE###' + str(cols).encode() + b',' + str(rows).encode()]
    followed by [trail] (e.g. a newline). *)
Definition resize_msg (cols rows : Z) (trail : bytes) : bytes :=
  RESIZE_PREFIX ++ str_Z cols ++ ","%char :: str_Z rows ++ trail.

(* ================================================================== *)
(** * Supporting lemmas *)

Module Text.

Definition is_digit (c : ascii) : bool := in_range 48 57 (byte_val c).

Lemma byte_val_digit_char (v : Z) : 0 <= v < 10 -> byte_val (digit_char v) = 48 + v.
Proof.
  intros Hv.
  assert (v = 0 \/ v = 1 \/ v = 2 \/ v = 3 \/ v = 4 \/ v = 5 \/ v = 6 \/
          v = 7 \/ v = 8 \/ v = 9) as Hc by lia.
  repeat destruct Hc as [-> | Hc]; try reflexivity; subst; reflexivity.
Qed.

Lemma digit_value_char (v : Z) : 0 <= v < 10 -> digit_value (byte_val (digit_char v)) = Some v.
Proof.
  intros Hv. rewrite byte_val_digit_char by exact Hv. unfold digit_value, in_range.
  replace ((48 <=? 48 + v) && (48 + v <=? 57)) with true
    by (symmetry; apply andb_true_intro; split; apply Z.leb_le; lia).
  f_equal; lia.
Qed.

Lemma is_digit_char (v : Z) : 0 <= v < 10 -> is_digit (digit_char v) = true.
Proof.
  intros Hv. unfold is_digit, in_range. rewrite byte_val_digit_char by exact Hv.
  apply andb_true_intro; split; apply Z.leb_le; lia.
Qed.

(** A character that neither [str.strip()] nor [int()] treats as
    whitespace, and that [int()] keeps as it is. *)
Definition solid (v : Z) : Prop := is_uspace v = false /\ v < 127.

(** A character of one field of the payload. *)
Definition field_char (v : Z) : Prop := solid v /\ v <> 0x2C.

Lemma digit_facts (c : ascii) :
  is_digit c = true -> field_char (byte_val c) /\ byte_val c <> 0x2D /\ byte_val c <> 0x2B.
Proof.
  unfold is_digit, in_range. generalize (byte_val c). intros v H.
  apply andb_true_iff in H as [H1 H2]. apply Z.leb_le in H1, H2.
  assert (v = 48 \/ v = 49 \/ v = 50 \/ v = 51 \/ v = 52 \/ v = 53 \/ v = 54 \/
          v = 55 \/ v = 56 \/ v = 57) as Hc by lia.
  unfold field_char, solid.
  repeat destruct Hc as [-> | Hc]; try subst v; repeat split; try reflexivity; lia.
Qed.

Lemma dec_aux_digits (f : nat) (n : Z) (acc : bytes) :
  0 <= n -> Forall (fun c => is_digit c = true) acc ->
  Forall (fun c => is_digit c = true) (dec_aux f n acc).
Proof.
  revert n acc; induction f as [|f IH]; intros n acc Hn Hacc; simpl; [exact Hacc|].
  assert (Hd : is_digit (digit_char (n mod 10)) = true)
    by (apply is_digit_char; apply Z.mod_pos_bound; lia).
  destruct (n <? 10).
  - now constructor.
  - apply IH; [apply Z.div_pos; lia | now constructor].
Qed.

Lemma dec_aux_parse (f : nat) (n : Z) (acc : bytes) :
  0 <= n < 10 ^ Z.of_nat (S f) ->
  parse_digits (map byte_val (dec_aux (S f) n acc)) = digits_after n (map byte_val acc).
Proof.
  revert n acc; induction f as [|f IH]; intros n acc Hn.
  - simpl in Hn. cbn [dec_aux].
    replace (n <? 10) with true by (symmetry; apply Z.ltb_lt; lia).
    cbn [map parse_digits]. rewrite digit_value_char by (apply Z.mod_pos_bound; lia).
    now rewrite Z.mod_small by lia.
  - change (dec_aux (S (S f)) n acc) with
      (if n <? 10 then digit_char (n mod 10) :: acc
       else dec_aux (S f) (n / 10) (digit_char (n mod 10) :: acc)).
    destruct (Z.ltb_spec n 10) as [Hlt | Hge].
    + cbn [map parse_digits]. rewrite digit_value_char by (apply Z.mod_pos_bound; lia).
      now rewrite Z.mod_small by lia.
    + rewrite IH.
      * cbn [map digits_after]. rewrite digit_value_char by (apply Z.mod_pos_bound; lia).
        f_equal. pose proof (Z.div_mod n 10 ltac:(lia)). lia.
      * split; [apply Z.div_pos; lia|].
        apply Z.div_lt_upper_bound; [lia|].
        rewrite Nat2Z.inj_succ, Z.pow_succ_r in Hn by lia. lia.
Qed.

Lemma str_N_fuel (n : Z) : 0 <= n -> n < 10 ^ Z.of_nat (S (Z.to_nat (Z.log2 n))).
Proof.
  intros Hn. rewrite Nat2Z.inj_succ, Z2Nat.id by apply Z.log2_nonneg.
  destruct (Z.eq_dec n 0) as [-> | Hnz]; [reflexivity|].
  destruct (Z.log2_spec n) as [_ Hup]; [lia|].
  eapply Z.lt_le_trans; [exact Hup|].
  apply Z.pow_le_mono_l. split; [lia|lia].
Qed.

Lemma str_N_parse (n : Z) : 0 <= n -> parse_digits (map byte_val (str_N n)) = Some n.
Proof.
  intros Hn. unfold str_N. rewrite dec_aux_parse; [reflexivity|].
  split; [exact Hn | now apply str_N_fuel].
Qed.

Lemma str_N_shape (n : Z) :
  0 <= n -> exists c s, str_N n = c :: s /\ Forall (fun c => is_digit c = true) (c :: s).
Proof.
  intros Hn. unfold str_N. simpl.
  pose proof (dec_aux_digits (Z.to_nat (Z.log2 n)) (n / 10)
                [digit_char (n mod 10)] ltac:(apply Z.div_pos; lia)) as Hf.
  assert (Hd : is_digit (digit_char (n mod 10)) = true)
    by (apply is_digit_char; apply Z.mod_pos_bound; lia).
  destruct (n <? 10).
  - exists (digit_char (n mod 10)), []. split; [reflexivity|]. now constructor.
  - assert (Hall := Hf ltac:(constructor; [exact Hd | constructor])).
    destruct (dec_aux (Z.to_nat (Z.log2 n)) (n / 10) [digit_char (n mod 10)])
      as [|c s] eqn:E.
    + (* dec_aux keeps its accumulator, which is not empty *)
      exfalso. revert E. generalize (Z.to_nat (Z.log2 n)), (n / 10).
      assert (Hne : forall f m a c0, dec_aux f m (c0 :: a) <> []).
      { induction f as [|f IHf]; intros m a c0; simpl; [discriminate|].
        destruct (m <? 10); [discriminate | apply IHf]. }
      intros f m; apply Hne.
    + exists c, s. split; [reflexivity | exact Hall].
Qed.

Lemma digits_field (l : bytes) :
  Forall (fun c => is_digit c = true) l -> Forall field_char (map byte_val l).
Proof.
  intros H. apply Forall_map. eapply Forall_impl; [|exact H].
  intros c Hc. now destruct (digit_facts c Hc).
Qed.

(** [str(z)] is a non-empty run of field characters, not starting with
    [+]. *)
Lemma str_Z_shape (z : Z) :
  exists v t, map byte_val (str_Z z) = v :: t /\ Forall field_char (v :: t) /\ v <> 0x2B.
Proof.
  unfold str_Z. destruct (Z.ltb_spec z 0) as [Hneg | Hpos].
  - destruct (str_N_shape (- z) ltac:(lia)) as (c & s & E & Hall).
    exists 45, (map byte_val (c :: s)). rewrite E. split; [reflexivity|]. split; [|lia].
    constructor; [|now apply digits_field].
    unfold field_char, solid. split; [split; [reflexivity | lia] | lia].
  - destruct (str_N_shape z ltac:(lia)) as (c & s & E & Hall).
    exists (byte_val c), (map byte_val s). rewrite E. split; [reflexivity|].
    split; [exact (digits_field _ Hall)|].
    inversion Hall as [|? ? Hc _]; subst. now destruct (digit_facts c Hc) as (_ & _ & ?).
Qed.

Lemma lstrip_by_keep (p : Z -> bool) (l : text) :
  Forall (fun c => p c = false) l -> lstrip_by p l = l.
Proof.
  intros Hl; destruct Hl as [|c l Hc _]; [reflexivity|]. simpl. now rewrite Hc.
Qed.

Lemma lstrip_by_spaces_app (p : Z -> bool) (l r : text) :
  Forall (fun c => p c = true) l -> lstrip_by p (l ++ r) = lstrip_by p r.
Proof. induction 1 as [|c l Hc _ IH]; [reflexivity|]. simpl. now rewrite Hc. Qed.

Lemma strip_by_trail (p : Z -> bool) (s trail : text) :
  Forall (fun c => p c = false) s -> Forall (fun c => p c = true) trail ->
  strip_by p (s ++ trail) = s.
Proof.
  intros Hs Ht. unfold strip_by.
  destruct s as [|c s'].
  - simpl. rewrite <- (app_nil_r trail), lstrip_by_spaces_app by exact Ht. reflexivity.
  - inversion Hs as [|? ? Hc _]; subst.
    change ((c :: s') ++ trail) with (c :: (s' ++ trail)).
    cbn [lstrip_by]. rewrite Hc.
    change (c :: s' ++ trail) with ((c :: s') ++ trail).
    rewrite rev_app_distr, lstrip_by_spaces_app by (apply Forall_rev; exact Ht).
    rewrite lstrip_by_keep by (apply Forall_rev; exact Hs).
    apply rev_involutive.
Qed.

Lemma strip_by_keep (p : Z -> bool) (s : text) :
  Forall (fun c => p c = false) s -> strip_by p s = s.
Proof.
  intros Hs. rewrite <- (app_nil_r s) at 1. apply strip_by_trail; [exact Hs | constructor].
Qed.

Lemma cspace_uspace (c : Z) : is_uspace c = false -> is_cspace c = false.
Proof.
  intros H.
  assert (A : in_range 9 13 c = false /\ in_range 28 32 c = false).
  { unfold is_uspace in H. repeat rewrite orb_false_iff in H. tauto. }
  destruct A as [A1 A2]. unfold is_cspace. rewrite A1. simpl.
  destruct (Z.eqb_spec c 32) as [-> | _]; [vm_compute in A2; discriminate A2 | reflexivity].
Qed.

Lemma split_comma_single (s : text) :
  Forall (fun c => c <> 0x2C) s -> split_comma s = [s].
Proof.
  induction 1 as [|c s Hc _ IH]; [reflexivity|]. simpl.
  replace (c =? 44) with false by (symmetry; now apply Z.eqb_neq).
  now rewrite IH.
Qed.

Lemma split_comma_app (s1 s2 : text) :
  Forall (fun c => c <> 0x2C) s1 ->
  split_comma (s1 ++ 0x2C :: s2) = s1 :: split_comma s2.
Proof.
  induction 1 as [|c s Hc _ IH]; [reflexivity|]. simpl.
  replace (c =? 44) with false by (symmetry; now apply Z.eqb_neq).
  now rewrite IH.
Qed.

Lemma to_ascii_digits_small (s : text) :
  Forall (fun c => c < 127) s -> to_ascii_digits s = Some s.
Proof.
  induction 1 as [|c s Hc _ IH]; [reflexivity|]. cbn [to_ascii_digits].
  replace (c <? 127) with true by (symmetry; now apply Z.ltb_lt).
  rewrite IH. reflexivity.
Qed.

Lemma py_int_str_Z (z : Z) : py_int (map byte_val (str_Z z)) = Some z.
Proof.
  destruct (str_Z_shape z) as (v & t & E & Hf & Hp).
  unfold py_int.
  rewrite to_ascii_digits_small
    by (rewrite E; eapply Forall_impl; [|exact Hf]; intros c [[_ H] _]; exact H).
  rewrite strip_by_keep
    by (rewrite E; eapply Forall_impl; [|exact Hf]; intros c [[H _] _];
        now apply cspace_uspace).
  unfold str_Z in *.
  destruct (Z.ltb_spec z 0) as [Hneg | Hpos].
  - cbn [map]. change (byte_val "-") with 45. cbn iota beta.
    rewrite Z.eqb_refl, str_N_parse by lia. simpl. now rewrite Z.opp_involutive.
  - destruct (str_N_shape z Hpos) as (c & s & E' & Hall). rewrite E'.
    inversion Hall as [|? ? Hc _]; subst.
    destruct (digit_facts c Hc) as (_ & Hm & Hpl).
    cbn [map]. cbn iota beta.
    replace (byte_val c =? 0x2D) with false by (symmetry; now apply Z.eqb_neq).
    replace (byte_val c =? 0x2B) with false by (symmetry; now apply Z.eqb_neq).
    change (byte_val c :: map byte_val s) with (map byte_val (c :: s)).
    rewrite <- E'. now apply str_N_parse.
Qed.

Lemma decode_cons_ascii (c : ascii) (r : bytes) :
  byte_val c < 128 -> decode (c :: r) = cons_opt (byte_val c) (decode r).
Proof.
  intros H. cbn [decode].
  replace (byte_val c <? 128) with true by (symmetry; now apply Z.ltb_lt).
  reflexivity.
Qed.

Lemma decode_ascii_app (l r : bytes) :
  Forall (fun c => byte_val c < 128) l ->
  decode (l ++ r) = option_map (fun t => map byte_val l ++ t) (decode r).
Proof.
  induction 1 as [|c l Hc _ IH].
  - simpl. destruct (decode r); reflexivity.
  - rewrite <- app_comm_cons, decode_cons_ascii by exact Hc. rewrite IH.
    destruct (decode r); reflexivity.
Qed.

Lemma space_facts (c : ascii) :
  is_space c = true -> byte_val c < 128 /\ is_uspace (byte_val c) = true.
Proof.
  intros H; destruct c as [[] [] [] [] [] [] [] []]; try discriminate H;
    split; reflexivity.
Qed.

(** The control message built from [str(cols)] and [str(rows)] parses
    back, whatever trailing bytes follow it, provided they decode to
    whitespace. *)
Lemma parse_resize_msg (cols rows : Z) (trail : bytes) (t : text) :
  decode trail = Some t -> Forall (fun c => is_uspace c = true) t ->
  parse_resize (resize_msg cols rows trail) = Some (cols, rows).
Proof.
  intros Hd Ht. unfold parse_resize, resize_msg.
  rewrite skipn_app, skipn_all, Nat.sub_diag, app_nil_l. cbn [skipn].
  set (core := str_Z cols ++ ","%char :: str_Z rows).
  replace (str_Z cols ++ ","%char :: str_Z rows ++ trail) with (core ++ trail)
    by (unfold core; now rewrite <- app_assoc).
  destruct (str_Z_shape cols) as (v1 & t1 & E1 & F1 & _).
  destruct (str_Z_shape rows) as (v2 & t2 & E2 & F2 & _).
  assert (Hcore : map byte_val core =
                  map byte_val (str_Z cols) ++ 0x2C :: map byte_val (str_Z rows))
    by (unfold core; rewrite map_app; reflexivity).
  assert (Hsolid : Forall solid (map byte_val core)).
  { rewrite Hcore, E1, E2. apply Forall_app; split.
    - eapply Forall_impl; [|exact F1]. now intros c [H _].
    - constructor; [unfold solid; split; [reflexivity | lia]|].
      eapply Forall_impl; [|exact F2]. now intros c [H _]. }
  rewrite decode_ascii_app, Hd
    by (pose proof Hsolid as H'; rewrite Forall_map in H';
        eapply Forall_impl; [|exact H']; intros c [_ H]; lia).
  cbn [option_map]. unfold strip.
  rewrite strip_by_trail
    by (first [exact Ht | eapply Forall_impl; [|exact Hsolid]; now intros c [H _]]).
  rewrite Hcore, split_comma_app
    by (rewrite E1; eapply Forall_impl; [|exact F1]; now intros c [_ H]).
  rewrite split_comma_single
    by (rewrite E2; eapply Forall_impl; [|exact F2]; now intros c [_ H]).
  cbn [map_int]. rewrite !py_int_str_Z. reflexivity.
Qed.

Lemma decode_ascii (l : bytes) :
  Forall (fun c => byte_val c < 128) l -> decode l = Some (map byte_val l).
Proof.
  intros H. rewrite <- (app_nil_r l) at 1. rewrite decode_ascii_app by exact H.
  simpl. now rewrite app_nil_r.
Qed.

Lemma parse_resize_msg_ascii (cols rows : Z) (trail : bytes) :
  Forall (fun c => is_space c = true) trail ->
  parse_resize (resize_msg cols rows trail) = Some (cols, rows).
Proof.
  intros Ht. apply (parse_resize_msg cols rows trail (map byte_val trail)).
  - apply decode_ascii. eapply Forall_impl; [|exact Ht].
    intros c Hc. now destruct (space_facts c Hc).
  - apply Forall_map. eapply Forall_impl; [|exact Ht].
    intros c Hc. now destruct (space_facts c Hc).
Qed.

End Text.

Module Loop.

(** The events the multiplex loop itself can produce. *)
Definition loop_event (master pid : Z) (e : event) : Prop :=
  match e with
  | EWriteMaster _ | EWriteStdout _ | EFlushStdout => True
  | ESetWinsize fd _ => fd = master
  | EKill t sig => t = pid /\ sig = SIGWINCH
  | _ => False
  end.

(** The effects of lines 50-56: [apply_resize] under [except Exception]. *)
Definition resize_effects (master pid : Z) (data : bytes) (a : os_answers) : list event :=
  fst (try_except (apply_resize master pid data a) is_Exception (fun _ => ret tt)).

Lemma apply_resize_caught (master pid : Z) (data : bytes) (a : os_answers) :
  try_except (apply_resize master pid data a) is_Exception (fun _ => ret tt)
  = (resize_effects master pid data a, Normal tt).
Proof.
  unfold resize_effects, apply_resize.
  destruct (parse_resize data) as [[c r]|]; [|reflexivity].
  destruct (pack_hhhh r c 0 0); [|reflexivity].
  destruct (ioctl_ok a), (kill_ok a); reflexivity.
Qed.

Lemma resize_effects_events (master pid : Z) (data : bytes) (a : os_answers) :
  Forall (loop_event master pid) (resize_effects master pid data a).
Proof.
  unfold resize_effects, apply_resize.
  destruct (parse_resize data) as [[c r]|]; [|constructor].
  destruct (pack_hhhh r c 0 0); [|constructor].
  destruct (ioctl_ok a), (kill_ok a); simpl; repeat constructor.
Qed.

Lemma resize_effects_malformed (master pid : Z) (data : bytes) (a : os_answers) :
  parse_resize data = None -> resize_effects master pid data a = [].
Proof. intros H. unfold resize_effects, apply_resize. now rewrite H. Qed.

Lemma resize_effects_msg (master pid cols rows : Z) (trail : bytes) (a : os_answers) :
  Forall (fun c => is_space c = true) trail ->
  resize_effects master pid (resize_msg cols rows trail) a =
  if short_ok cols && short_ok rows then
    if ioctl_ok a then
      ESetWinsize master (mk_winsize rows cols 0 0)
        :: (if kill_ok a then [EKill pid SIGWINCH] else [])
    else []
  else [].
Proof.
  intros Ht. unfold resize_effects, apply_resize.
  rewrite Text.parse_resize_msg_ascii by exact Ht. unfold pack_hhhh.
  destruct (short_ok cols), (short_ok rows); simpl; try reflexivity.
  destruct (ioctl_ok a), (kill_ok a); reflexivity.
Qed.

Lemma handle_stdin_sentinel (master pid : Z) (data : bytes) (a : os_answers) :
  startswith RESIZE_PREFIX data = true ->
  handle_stdin master pid (StdinData data a)
  = (resize_effects master pid data a, Normal Continue).
Proof.
  intros Hs. destruct data as [|c d]; [discriminate|].
  unfold handle_stdin, stdin_body. rewrite Hs, apply_resize_caught. simpl.
  now rewrite app_nil_r.
Qed.

Lemma handle_stdin_ok (master pid : Z) (ev : stdin_ev) :
  exists l c, handle_stdin master pid ev = (l, Normal c) /\
              Forall (loop_event master pid) l.
Proof.
  destruct ev as [|data a].
  - do 2 eexists; split; [reflexivity | constructor].
  - destruct data as [|c d]; [do 2 eexists; split; [reflexivity | constructor]|].
    destruct (startswith RESIZE_PREFIX (c :: d)) eqn:Hs.
    + rewrite handle_stdin_sentinel by exact Hs.
      do 2 eexists; split; [reflexivity | apply resize_effects_events].
    + unfold handle_stdin, stdin_body. rewrite Hs.
      destruct (write_ok a); simpl; do 2 eexists; split; try reflexivity;
        repeat constructor.
Qed.

Lemma handle_master_ok (master pid : Z) (ev : master_ev) :
  exists l c, handle_master ev = (l, Normal c) /\ Forall (loop_event master pid) l.
Proof.
  assert (R : forall data w f, exists l c,
             try_except (relay data w f) is_OSError (fun _ => ret Break) = (l, Normal c) /\
             Forall (loop_event master pid) l).
  { intros [|c d] w f; [do 2 eexists; split; [reflexivity | constructor]|].
    unfold relay. destruct w, f; simpl; do 2 eexists; split; try reflexivity;
      repeat constructor. }
  destruct ev as [|data ok|data];
    [do 2 eexists; split; [reflexivity | constructor] | exact (R data ok true) | exact (R data true false)].
Qed.

Lemma for_ready_ok (master pid : Z) (si : option stdin_ev) (mi : option master_ev) :
  exists l, for_ready master pid si mi = (l, Normal tt) /\
            Forall (loop_event master pid) l.
Proof.
  unfold for_ready.
  destruct si as [e|].
  - destruct (handle_stdin_ok master pid e) as (l & c & E & F). rewrite E.
    destruct c.
    + destruct mi as [e'|].
      * destruct (handle_master_ok master pid e') as (l' & c' & E' & F').
        simpl. rewrite E'. simpl. eexists; split; [reflexivity|].
        rewrite !app_nil_r. now apply Forall_app.
      * simpl. eexists; split; [reflexivity|]. now rewrite app_nil_r.
    + simpl. eexists; split; [reflexivity|]. now rewrite app_nil_r.
  - destruct mi as [e'|].
    + destruct (handle_master_ok master pid e') as (l' & c' & E' & F').
      simpl. rewrite E'. simpl. eexists; split; [reflexivity|].
      now rewrite app_nil_r.
    + eexists; split; [reflexivity | constructor].
Qed.

Lemma multiplex_events (master pid : Z) (its : list iteration) :
  Forall (loop_event master pid) (fst (multiplex master pid its)).
Proof.
  induction its as [|[|si mi] rest IH]; simpl; try constructor.
  destruct (Loop.for_ready_ok master pid si mi) as (l & E & F).
  unfold bind. rewrite E. destruct (multiplex master pid rest) as [l' r'].
  simpl in *. now apply Forall_app.
Qed.

Lemma multiplex_no_interrupt (master pid : Z) (its : list iteration) :
  Forall (fun i => i <> Interrupt) its ->
  multiplex master pid its = (fst (multiplex master pid its), Normal tt).
Proof.
  induction 1 as [|[|si mi] rest Hi _ IH]; [reflexivity | congruence|].
  simpl. destruct (Loop.for_ready_ok master pid si mi) as (l & E & _).
  unfold bind. rewrite E. rewrite IH. reflexivity.
Qed.

Lemma multiplex_interrupt (master pid : Z) (pre post : list iteration) :
  Forall (fun i => i <> Interrupt) pre ->
  multiplex master pid (pre ++ Interrupt :: post)
  = (fst (multiplex master pid pre), Raise KeyboardInterrupt).
Proof.
  induction 1 as [|[|si mi] rest Hi _ IH]; [reflexivity | congruence|].
  simpl. destruct (Loop.for_ready_ok master pid si mi) as (l & E & _).
  unfold bind. rewrite E, IH. simpl.
  destruct (multiplex master pid rest); reflexivity.
Qed.

Lemma teardown_events (env : session_env) (master pid : Z) :
  fst (teardown env master pid) =
  if close_ok env then
    ECloseFd master :: (if terminate_ok env then [ETerminate pid; EWait pid] else [])
  else [].
Proof.
  unfold teardown, os_call. destruct (close_ok env), (terminate_ok env); reflexivity.
Qed.

Lemma session_events (env : session_env) (cmd : list string) (cwd : string)
    (master slave pid : Z) :
  openpty_result env = Some (master, slave) -> popen_result env = Some pid ->
  fst (create_pty_session env cmd cwd) =
  [EOpenPty master slave; ESpawn cmd cwd pid; ECloseFd slave] ++
  fst (try_except (multiplex master pid (script env)) is_KeyboardInterrupt
         (fun _ => os_call (sigint_ok env) (EKill pid SIGINT))) ++
  fst (teardown env master pid).
Proof.
  intros Hpty Hpid. unfold create_pty_session. rewrite Hpty, Hpid.
  unfold try_finally.
  destruct (try_except _ _ _) as [l r].
  destruct (teardown env master pid) as [l' r'].
  reflexivity.
Qed.

End Loop.

Module Session.

Lemma guarded_loop_events (master pid : Z) (its : list iteration) (ok : bool) :
  Forall (fun e => Loop.loop_event master pid e \/ e = EKill pid SIGINT)
    (fst (try_except (multiplex master pid its) is_KeyboardInterrupt
            (fun _ => os_call ok (EKill pid SIGINT)))).
Proof.
  pose proof (Loop.multiplex_events master pid its) as F.
  destruct (multiplex master pid its) as [l r]. simpl in F.
  assert (F' : Forall (fun e => Loop.loop_event master pid e \/ e = EKill pid SIGINT) l)
    by (eapply Forall_impl; [|exact F]; intros; now left).
  destruct r as [u|[]]; simpl; try exact F'.
  destruct ok; simpl; [|now rewrite app_nil_r].
  apply Forall_app; split; [exact F'|]. constructor; [now right | constructor].
Qed.

End Session.

Definition ok_answers : os_answers := mk_answers true true true.
Definition newline : ascii := ascii_of_nat 10.

(* ================================================================== *)
(** * The claims *)

(** C1: a stdin chunk that begins with [###RESIZE###] is never written to
    the PTY master, whether or not its payload parses, and the loop goes on
    ([Continue]); when the payload is malformed (decoding, [int()] or the
    unpacking into two values raises, i.e. [parse_resize] fails) the chunk
    has no effect at all (no event). *)
Theorem resize_chunk_not_forwarded (master pid : Z) (data : bytes) (a : os_answers) :
  startswith RESIZE_PREFIX data = true ->
  forwarded (fst (handle_stdin master pid (StdinData data a))) = [] /\
  snd (handle_stdin master pid (StdinData data a)) = Normal Continue /\
  (parse_resize data = None -> fst (handle_stdin master pid (StdinData data a)) = []).
Proof.
  intros Hs. rewrite Loop.handle_stdin_sentinel by exact Hs. simpl.
  split; [|split; [reflexivity|]].
  - unfold Loop.resize_effects, apply_resize.
    destruct (parse_resize data) as [[c r]|]; [|reflexivity].
    destruct (pack_hhhh r c 0 0); [|reflexivity].
    destruct (ioctl_ok a), (kill_ok a); reflexivity.
  - apply Loop.resize_effects_malformed.
Qed.

Lemma resize_chunk_not_forwarded_witness :
  startswith RESIZE_PREFIX (b "###RESIZE###80;24") = true /\
  (forwarded (fst (handle_stdin 5 100 (StdinData (b "###RESIZE###80;24") ok_answers))) = [] /\
   snd (handle_stdin 5 100 (StdinData (b "###RESIZE###80;24") ok_answers)) = Normal Continue /\
   (parse_resize (b "###RESIZE###80;24") = None ->
    fst (handle_stdin 5 100 (StdinData (b "###RESIZE###80;24") ok_answers)) = [])).
Proof.
  split; [reflexivity|].
  apply (resize_chunk_not_forwarded 5 100 (b "###RESIZE###80;24") ok_answers).
  reflexivity.
Defined.

(** C2 (as stated): a message whose fields parse as integers but do not
    fit a signed 16-bit [short] is not applied at all: [struct.pack]
    raises, which the [except Exception] swallows. *)
Lemma resize_out_of_range_counterexample :
  parse_resize (resize_msg 40000 24 [newline]) = Some (40000, 24) /\
  handle_stdin 5 100 (StdinData (resize_msg 40000 24 [newline]) ok_answers)
  = ([], Normal Continue).
Proof. split; vm_compute; reflexivity. Qed.

(** C2 (amended): for a chunk (at most the 1024 bytes [os.read] returns)
    that begins with [###RESIZE###] and whose payload the code parses into
    [(cols, rows)] (UTF-8 decoding, [str.strip()], [split(',')] into
    exactly two fields, [int()] on each), when [ioctl] and [kill] succeed:
    a pair in the [short] range sets the master's [winsize] to [rows] rows
    and [cols] columns and then sends [SIGWINCH] to the child; outside that
    range nothing happens.  Nothing is forwarded in either case. *)
Theorem resize_message_applied (master pid cols rows : Z) (data : bytes)
    (a : os_answers) :
  (length data <= 1024)%nat ->
  startswith RESIZE_PREFIX data = true ->
  parse_resize data = Some (cols, rows) ->
  ioctl_ok a = true -> kill_ok a = true ->
  handle_stdin master pid (StdinData data a) =
  (if short_ok cols && short_ok rows
   then [ESetWinsize master (mk_winsize rows cols 0 0); EKill pid SIGWINCH]
   else [], Normal Continue).
Proof.
  intros _ Hs Hp Hi Hk.
  rewrite Loop.handle_stdin_sentinel by exact Hs.
  unfold Loop.resize_effects, apply_resize. rewrite Hp. unfold pack_hhhh.
  destruct (short_ok cols), (short_ok rows); simpl; try reflexivity.
  rewrite Hi, Hk. reflexivity.
Qed.

(** [###RESIZE###] followed by [U+0668 U+0660] (80 in Arabic-Indic digits),
    [,24] and a no-break space, in UTF-8. *)
Definition unicode_resize : bytes :=
  b "###RESIZE###" ++ bs [217; 168; 217; 160] ++ b ",24" ++ bs [194; 160].

Lemma resize_message_applied_witness :
  (length unicode_resize <= 1024)%nat /\
  startswith RESIZE_PREFIX unicode_resize = true /\
  parse_resize unicode_resize = Some (80, 24) /\
  ioctl_ok ok_answers = true /\ kill_ok ok_answers = true /\
  handle_stdin 5 100 (StdinData unicode_resize ok_answers) =
  (if short_ok 80 && short_ok 24
   then [ESetWinsize 5 (mk_winsize 24 80 0 0); EKill 100 SIGWINCH]
   else [], Normal Continue).
Proof.
  assert (Hl : (length unicode_resize <= 1024)%nat) by (vm_compute; lia).
  assert (Hs : startswith RESIZE_PREFIX unicode_resize = true) by reflexivity.
  assert (Hp : parse_resize unicode_resize = Some (80, 24)) by reflexivity.
  split; [exact Hl|]. split; [exact Hs|]. split; [exact Hp|].
  split; [reflexivity|]. split; [reflexivity|].
  apply (resize_message_applied 5 100 80 24 unicode_resize ok_answers Hl Hs Hp);
    reflexivity.
Defined.

(** A session that starts normally: master 5, slave 6, child pid 100. *)
Definition env_with (its : list iteration) (close terminate : bool) : session_env :=
  mk_env (Some (5, 6)) (Some 100) its true close terminate.

Definition sh_l : list string := ["/bin/sh"; "-l"]%string.

(** C3 (as stated): after an interrupt the loop is not resumed.  The
    child is still alive (the script has a further pass, with input on
    stdin and output on the master), yet the bridge sends [SIGINT], then
    tears down: it closes the master and terminates and reaps the child;
    the later input is never forwarded. *)
Lemma interrupt_counterexample :
  fst (create_pty_session
         (env_with [Interrupt;
                    Ready (Some (StdinData (b "ls") ok_answers))
                          (Some (MasterData (b "out") true))] true true)
         sh_l "/tmp"%string)
  = [EOpenPty 5 6; ESpawn sh_l "/tmp"%string 100; ECloseFd 6;
     EKill 100 SIGINT; ECloseFd 5; ETerminate 100; EWait 100].
Proof. vm_compute. reflexivity. Qed.

(** C3 (amended): when [KeyboardInterrupt] is raised after the passes
    [pre], the passes after it never run: the bridge sends [SIGINT] to the
    child (when [os.kill] succeeds) and goes straight to teardown. *)
Theorem interrupt_forwards_then_tears_down (env : session_env) (cmd : list string)
    (cwd : string) (master slave pid : Z) (pre post : list iteration) :
  openpty_result env = Some (master, slave) -> popen_result env = Some pid ->
  script env = pre ++ Interrupt :: post ->
  Forall (fun i => i <> Interrupt) pre ->
  fst (create_pty_session env cmd cwd) =
  [EOpenPty master slave; ESpawn cmd cwd pid; ECloseFd slave] ++
  fst (multiplex master pid pre) ++
  (if sigint_ok env then [EKill pid SIGINT] else []) ++
  fst (teardown env master pid).
Proof.
  intros Hpty Hpid Hs Hpre.
  rewrite (Loop.session_events env cmd cwd master slave pid Hpty Hpid), Hs.
  rewrite Loop.multiplex_interrupt by exact Hpre.
  unfold try_except, os_call. simpl.
  destruct (sigint_ok env); simpl; rewrite ?app_nil_r, <- ?app_assoc; reflexivity.
Qed.

Lemma interrupt_forwards_then_tears_down_witness :
  let env := env_with [Ready (Some (StdinData (b "x") ok_answers)) None; Interrupt;
                       Ready (Some (StdinData (b "y") ok_answers)) None] true true in
  openpty_result env = Some (5, 6) /\ popen_result env = Some 100 /\
  script env = [Ready (Some (StdinData (b "x") ok_answers)) None] ++ Interrupt ::
               [Ready (Some (StdinData (b "y") ok_answers)) None] /\
  Forall (fun i => i <> Interrupt) [Ready (Some (StdinData (b "x") ok_answers)) None] /\
  fst (create_pty_session env sh_l "/tmp"%string) =
  [EOpenPty 5 6; ESpawn sh_l "/tmp"%string 100; ECloseFd 6] ++
  fst (multiplex 5 100 [Ready (Some (StdinData (b "x") ok_answers)) None]) ++
  (if sigint_ok env then [EKill 100 SIGINT] else []) ++
  fst (teardown env 5 100).
Proof.
  intros env.
  assert (Hf : Forall (fun i => i <> Interrupt)
                 [Ready (Some (StdinData (b "x") ok_answers)) None])
    by (repeat constructor; discriminate).
  split; [reflexivity|]. split; [reflexivity|]. split; [reflexivity|].
  split; [exact Hf|].
  apply (interrupt_forwards_then_tears_down env sh_l "/tmp"%string 5 6 100
           [Ready (Some (StdinData (b "x") ok_answers)) None]
           [Ready (Some (StdinData (b "y") ok_answers)) None]);
    [reflexivity | reflexivity | reflexivity | exact Hf].
Defined.

(** C4 (as stated): when [Popen] fails, neither PTY descriptor is closed
    before the exception leaves [create_pty_session]. *)
Lemma spawn_failure_counterexample :
  create_pty_session (mk_env (Some (5, 6)) None [] true true true) sh_l "/tmp"%string
  = ([EOpenPty 5 6], Raise OSError).
Proof. reflexivity. Qed.

(** C4 (amended): when [Popen] fails the [OSError] propagates, no child is
    spawned, and the only effect is the PTY allocation, if it succeeded:
    its two descriptors are left open. *)
Theorem spawn_failure_propagates (env : session_env) (cmd : list string) (cwd : string) :
  popen_result env = None ->
  create_pty_session env cmd cwd =
  (match openpty_result env with
   | Some (master, slave) => [EOpenPty master slave]
   | None => []
   end, Raise OSError).
Proof.
  intros Hp. unfold create_pty_session.
  destruct (openpty_result env) as [[m s]|]; [|reflexivity].
  rewrite Hp. reflexivity.
Qed.

Lemma spawn_failure_propagates_witness :
  popen_result (mk_env (Some (5, 6)) None [] true true true) = None /\
  create_pty_session (mk_env (Some (5, 6)) None [] true true true) sh_l "/tmp"%string =
  (match openpty_result (mk_env (Some (5, 6)) None [] true true true) with
   | Some (master, slave) => [EOpenPty master slave]
   | None => []
   end, Raise OSError).
Proof.
  split; [reflexivity|].
  apply (spawn_failure_propagates (mk_env (Some (5, 6)) None [] true true true)).
  reflexivity.
Defined.

(** C5 (as stated): if [os.close(master)] raises, the [finally] block
    stops there: the child is neither terminated nor reaped. *)
Lemma teardown_close_failure_counterexample :
  create_pty_session (env_with [] false true) sh_l "/tmp"%string
  = ([EOpenPty 5 6; ESpawn sh_l "/tmp"%string 100; ECloseFd 6], Raise OSError).
Proof. reflexivity. Qed.

(** C5 (amended): whatever the loop does, the session ends with the
    [finally] block, which closes the master, then terminates the child
    only if the close succeeded, then reaps it only if the termination
    succeeded; none of these effects occurs earlier. *)
Theorem teardown_runs_in_order (env : session_env) (cmd : list string) (cwd : string)
    (master slave pid : Z) :
  openpty_result env = Some (master, slave) -> popen_result env = Some pid ->
  master <> slave ->
  exists pre,
    fst (create_pty_session env cmd cwd) =
    pre ++ (if close_ok env then
              ECloseFd master ::
                (if terminate_ok env then [ETerminate pid; EWait pid] else [])
            else []) /\
    ~ In (ECloseFd master) pre /\ ~ In (ETerminate pid) pre /\ ~ In (EWait pid) pre.
Proof.
  intros Hpty Hpid Hms.
  rewrite (Loop.session_events env cmd cwd master slave pid Hpty Hpid),
    Loop.teardown_events.
  eexists; split; [rewrite app_assoc; reflexivity|].
  pose proof (Session.guarded_loop_events master pid (script env) (sigint_ok env)) as F.
  rewrite Forall_forall in F.
  repeat split; intros Hin; apply in_app_iff in Hin as [Hin | Hin];
    try (simpl in Hin; intuition congruence);
    destruct (F _ Hin) as [Hl | Hl]; simpl in Hl; try discriminate; exact Hl.
Qed.

Lemma teardown_runs_in_order_witness :
  openpty_result (env_with [] true false) = Some (5, 6) /\
  popen_result (env_with [] true false) = Some 100 /\ 5 <> 6 /\
  exists pre,
    fst (create_pty_session (env_with [] true false) sh_l "/tmp"%string) =
    pre ++ (if close_ok (env_with [] true false) then
              ECloseFd 5 ::
                (if terminate_ok (env_with [] true false)
                 then [ETerminate 100; EWait 100] else [])
            else []) /\
    ~ In (ECloseFd 5) pre /\ ~ In (ETerminate 100) pre /\ ~ In (EWait 100) pre.
Proof.
  split; [reflexivity|]. split; [reflexivity|]. split; [lia|].
  apply (teardown_runs_in_order (env_with [] true false) sh_l "/tmp"%string 5 6 100);
    [reflexivity | reflexivity | lia].
Defined.

(** C6 (as stated): an empty read from the master is not treated like a
    read error: it writes nothing and processing continues, and the loop
    keeps bridging the child's later output. *)
Lemma empty_master_read_counterexample :
  handle_master (MasterData [] true) = ([], Normal Continue) /\
  handle_master MasterReadError = ([], Normal Break) /\
  fst (multiplex 5 100 [Ready None (Some (MasterData [] true));
                        Ready None (Some (MasterData (b "hi") true))])
  = [EWriteStdout (b "hi"); EFlushStdout].
Proof. repeat split; reflexivity. Qed.

(** C6 (amended): a chunk read from the master is written verbatim to
    stdout and flushed at once when non-empty; an empty chunk has no
    effect; in both cases processing continues. *)
Theorem master_chunk_to_stdout (data : bytes) :
  handle_master (MasterData data true) =
  (match data with
   | [] => []
   | _ => [EWriteStdout data; EFlushStdout]
   end, Normal Continue).
Proof. destruct data; reflexivity. Qed.

(** C7 (as stated): the [SIGWINCH] of a successful resize goes to the
    child's pid, a single process for [os.kill], not to its process group
    (which [os.kill] would address by the negated pid). *)
Lemma winch_target_counterexample :
  handle_stdin 5 100 (StdinData (resize_msg 80 24 []) ok_answers)
  = ([ESetWinsize 5 (mk_winsize 24 80 0 0); EKill 100 SIGWINCH], Normal Continue) /\
  ~ In (EKill (-100) SIGWINCH)
      (fst (handle_stdin 5 100 (StdinData (resize_msg 80 24 []) ok_answers))).
Proof.
  split; [vm_compute; reflexivity|].
  vm_compute. intros [H | [H | []]]; discriminate.
Qed.

(** C7 (amended): every [SIGWINCH] the bridge sends in a session is sent
    with [os.kill] to the child's own pid. *)
Theorem winch_sent_to_child_pid (env : session_env) (cmd : list string) (cwd : string)
    (master slave pid t : Z) :
  openpty_result env = Some (master, slave) -> popen_result env = Some pid ->
  In (EKill t SIGWINCH) (fst (create_pty_session env cmd cwd)) -> t = pid.
Proof.
  intros Hpty Hpid.
  rewrite (Loop.session_events env cmd cwd master slave pid Hpty Hpid),
    Loop.teardown_events.
  pose proof (Session.guarded_loop_events master pid (script env) (sigint_ok env)) as F.
  rewrite Forall_forall in F.
  intros Hin. apply in_app_iff in Hin as [Hin | Hin]; [simpl in Hin; intuition congruence|].
  apply in_app_iff in Hin as [Hin | Hin].
  - destruct (F _ Hin) as [[Ht _] | Hl]; [exact Ht | discriminate].
  - destruct (close_ok env), (terminate_ok env); simpl in Hin; intuition congruence.
Qed.

Definition resize_env : session_env :=
  env_with [Ready (Some (StdinData (resize_msg 80 24 [newline]) ok_answers)) None]
    true true.

Lemma winch_sent_to_child_pid_witness :
  openpty_result resize_env = Some (5, 6) /\ popen_result resize_env = Some 100 /\
  In (EKill 100 SIGWINCH) (fst (create_pty_session resize_env sh_l "/tmp"%string)) /\
  100 = 100.
Proof.
  assert (Hin : In (EKill 100 SIGWINCH)
                  (fst (create_pty_session resize_env sh_l "/tmp"%string)))
    by (vm_compute; repeat (first [left; reflexivity | right])).
  split; [reflexivity|]. split; [reflexivity|]. split; [exact Hin|].
  apply (winch_sent_to_child_pid resize_env sh_l "/tmp"%string 5 6 100 100);
    [reflexivity | reflexivity | exact Hin].
Defined.

(** C8 (as stated): a single empty command word is a command word, but it
    joins to the empty string and the child is then an interactive login
    shell, without [-c]. *)
Lemma empty_command_word_counterexample :
  main ["pty_bridge.py"; "/bin/sh"; "/tmp"; ""]%string
  = RunSession ["/bin/sh"; "-l"]%string "/tmp"%string.
Proof. reflexivity. Qed.

(** C8 (amended): with at least the shell and the working directory, the
    child's argv is [[shell, "-l", "-c", command]] where [command] is the
    command words joined by single spaces, when that string is not empty,
    and [[shell, "-l"]] otherwise. *)
Theorem main_shell_command (prog shell cwd : string) (words : list string) :
  main (prog :: shell :: cwd :: words) =
  (if String.eqb (String.concat " " words) ""
   then RunSession [shell; "-l"%string] cwd
   else RunSession [shell; "-l"%string; "-c"%string; String.concat " " words] cwd).
Proof. destruct words; reflexivity. Qed.

(** C9: a stdin chunk that does not begin with [###RESIZE###] is written
    to the master as it is, when the write succeeds, wherever else the
    sentinel bytes occur in it.  [handle_stdin] has no state from earlier
    chunks, so a sentinel split over two reads is forwarded as well. *)
Theorem plain_chunk_forwarded_verbatim (master pid : Z) (data : bytes) (a : os_answers) :
  startswith RESIZE_PREFIX data = false -> write_ok a = true ->
  handle_stdin master pid (StdinData data a) =
  (match data with [] => [] | _ => [EWriteMaster data] end, Normal Continue) /\
  forwarded (fst (handle_stdin master pid (StdinData data a))) = data.
Proof.
  intros Hs Hw.
  assert (E : handle_stdin master pid (StdinData data a) =
              (match data with [] => [] | _ => [EWriteMaster data] end, Normal Continue)).
  { destruct data as [|c d]; [reflexivity|].
    unfold handle_stdin, stdin_body. rewrite Hs. unfold os_call. rewrite Hw.
    reflexivity. }
  split; [exact E|]. rewrite E. destruct data; simpl; [reflexivity|].
  now rewrite app_nil_r.
Qed.

Lemma plain_chunk_forwarded_verbatim_witness :
  startswith RESIZE_PREFIX (b "ls ###RESIZE###80,24") = false /\
  write_ok ok_answers = true /\
  handle_stdin 5 100 (StdinData (b "ls ###RESIZE###80,24") ok_answers) =
  ([EWriteMaster (b "ls ###RESIZE###80,24")], Normal Continue) /\
  forwarded (fst (handle_stdin 5 100 (StdinData (b "ls ###RESIZE###80,24") ok_answers)))
  = b "ls ###RESIZE###80,24".
Proof.
  split; [reflexivity|]. split; [reflexivity|].
  apply (plain_chunk_forwarded_verbatim 5 100 (b "ls ###RESIZE###80,24") ok_answers);
    reflexivity.
Defined.

(** A sentinel split over two reads reaches the child as terminal input. *)
Example split_sentinel_forwarded :
  forwarded (fst (multiplex 5 100
    [Ready (Some (StdinData (b "###RES") ok_answers)) None;
     Ready (Some (StdinData (b "IZE###80,24") ok_answers)) None]))
  = b "###RESIZE###80,24".
Proof. reflexivity. Qed.

(** C10: apart from [int()] parsing, the payload is not validated: any
    two integers that fit a [short], zero and negative ones included, are
    written to the master's [winsize] and followed by [SIGWINCH] (when
    [ioctl] and [kill] succeed). *)
Theorem resize_no_range_validation (master pid cols rows : Z) (a : os_answers) :
  short_ok cols = true -> short_ok rows = true ->
  ioctl_ok a = true -> kill_ok a = true ->
  handle_stdin master pid (StdinData (resize_msg cols rows []) a) =
  ([ESetWinsize master (mk_winsize rows cols 0 0); EKill pid SIGWINCH], Normal Continue).
Proof.
  intros Hc Hr Hi Hk.
  rewrite Loop.handle_stdin_sentinel by reflexivity.
  rewrite Loop.resize_effects_msg by constructor. rewrite Hc, Hr, Hi, Hk. reflexivity.
Qed.

Lemma resize_no_range_validation_witness :
  short_ok (-1) = true /\ short_ok 0 = true /\
  ioctl_ok ok_answers = true /\ kill_ok ok_answers = true /\
  handle_stdin 5 100 (StdinData (resize_msg (-1) 0 []) ok_answers) =
  ([ESetWinsize 5 (mk_winsize 0 (-1) 0 0); EKill 100 SIGWINCH], Normal Continue).
Proof.
  repeat (split; [reflexivity|]).
  apply (resize_no_range_validation 5 100 (-1) 0 ok_answers); reflexivity.
Defined.

(* ================================================================== *)
(** * Further properties of the code *)

(** ** The child's environment (lines 19-22) *)

(** A Python [dict] of strings, in insertion order.  Assigning an existing
    key replaces its value in place; a new key is appended. *)
Definition dict := list (string * string).

Fixpoint dict_get (d : dict) (k : string) : option string :=
  match d with
  | [] => None
  | (k', v) :: d' => if String.eqb k k' then Some v else dict_get d' k
  end.

Fixpoint dict_set (d : dict) (k v : string) : dict :=
  match d with
  | [] => [(k, v)]
  | (k', v') :: d' =>
      if String.eqb k k' then (k, v) :: d' else (k', v') :: dict_set d' k v
  end.

(** [env = os.environ.copy()] followed by the three assignments. *)
Definition child_env (environ : dict) (cwd : string) : dict :=
  let env := environ in
  let env := dict_set env "TERM" "xterm-256color" in
  let env := dict_set env "COLORTERM" "truecolor" in
  dict_set env "PWD" cwd.

Lemma dict_get_set (d : dict) (k v k2 : string) :
  dict_get (dict_set d k v) k2 = if String.eqb k2 k then Some v else dict_get d k2.
Proof.
  induction d as [|[k' v'] d IH]; simpl.
  - reflexivity.
  - destruct (String.eqb_spec k k') as [<- | Hne]; simpl.
    + now destruct (k2 =? k)%string.
    + rewrite IH. destruct (String.eqb_spec k2 k') as [-> | Hne2].
      * destruct (String.eqb_spec k' k); [congruence | reflexivity].
      * reflexivity.
Qed.

Lemma dict_set_keys (d : dict) (k v : string) :
  NoDup (map fst d) -> NoDup (map fst (dict_set d k v)) /\
  (forall k2, In k2 (map fst (dict_set d k v)) <-> k2 = k \/ In k2 (map fst d)).
Proof.
  induction d as [|[k' v'] d IH]; intros Hnd; simpl.
  - split; [constructor; [intros [] | constructor] | intros; simpl; intuition congruence].
  - inversion Hnd as [|? ? Hnin Hnd']; subst.
    destruct (String.eqb_spec k k') as [<- | Hne]; simpl.
    + split; [now constructor | intros; simpl; split; [tauto | intros [-> | [-> | H]]; tauto]].
    + destruct (IH Hnd') as [Hnd2 Hin2]. split.
      * constructor; [|exact Hnd2]. rewrite Hin2. intros [-> | H]; [congruence | tauto].
      * intros k2. rewrite Hin2. tauto.
Qed.

(** X1: the environment given to the child advertises [TERM=xterm-256color],
    [COLORTERM=truecolor] and [PWD=<cwd>], whatever the bridge inherited,
    and keeps every other inherited variable with its value. *)
Theorem child_env_lookup (environ : dict) (cwd k : string) :
  dict_get (child_env environ cwd) k =
  if String.eqb k "PWD" then Some cwd
  else if String.eqb k "COLORTERM" then Some "truecolor"%string
  else if String.eqb k "TERM" then Some "xterm-256color"%string
  else dict_get environ k.
Proof. unfold child_env. now rewrite !dict_get_set. Qed.

(** X2: building the child's environment keeps the keys distinct and
    removes no inherited variable; it only adds [TERM], [COLORTERM] and
    [PWD] when they were absent. *)
Theorem child_env_keys (environ : dict) (cwd : string) :
  NoDup (map fst environ) ->
  NoDup (map fst (child_env environ cwd)) /\
  (forall k, In k (map fst (child_env environ cwd)) <->
             k = "PWD"%string \/ k = "COLORTERM"%string \/ k = "TERM"%string \/
             In k (map fst environ)).
Proof.
  intros Hnd. unfold child_env.
  destruct (dict_set_keys environ "TERM" "xterm-256color" Hnd) as [N1 I1].
  destruct (dict_set_keys _ "COLORTERM" "truecolor" N1) as [N2 I2].
  destruct (dict_set_keys _ "PWD" cwd N2) as [N3 I3].
  split; [exact N3|]. intros k. rewrite I3, I2, I1. tauto.
Qed.

Lemma child_env_keys_witness :
  NoDup (map fst [("HOME", "/root"); ("TERM", "dumb")]%string) /\
  NoDup (map fst (child_env [("HOME", "/root"); ("TERM", "dumb")]%string "/tmp")) /\
  (forall k, In k (map fst (child_env [("HOME", "/root"); ("TERM", "dumb")]%string "/tmp")) <->
             k = "PWD"%string \/ k = "COLORTERM"%string \/ k = "TERM"%string \/
             In k (map fst [("HOME", "/root"); ("TERM", "dumb")]%string)).
Proof.
  assert (H : NoDup (map fst [("HOME", "/root"); ("TERM", "dumb")]%string))
    by (simpl; constructor; [simpl; intros [H | []]; discriminate | repeat constructor; auto]).
  split; [exact H|].
  apply (child_env_keys [("HOME", "/root"); ("TERM", "dumb")]%string "/tmp"). exact H.
Defined.

(** ** Partial failures of a resize *)

(** X6: a resize whose [ioctl] fails sends no [SIGWINCH]; one whose
    [ioctl] succeeds but whose [os.kill] fails still leaves the new window
    size in place.  Both errors are swallowed and processing goes on. *)
Theorem resize_partial_failures (master pid cols rows : Z) (trail : bytes)
    (a : os_answers) :
  Forall (fun c => is_space c = true) trail ->
  short_ok cols = true -> short_ok rows = true ->
  (ioctl_ok a = false ->
   handle_stdin master pid (StdinData (resize_msg cols rows trail) a)
   = ([], Normal Continue)) /\
  (ioctl_ok a = true -> kill_ok a = false ->
   handle_stdin master pid (StdinData (resize_msg cols rows trail) a)
   = ([ESetWinsize master (mk_winsize rows cols 0 0)], Normal Continue)).
Proof.
  intros Ht Hc Hr.
  rewrite Loop.handle_stdin_sentinel by reflexivity.
  rewrite Loop.resize_effects_msg by exact Ht. rewrite Hc, Hr.
  split; intros Hi; rewrite Hi; [reflexivity|]. intros Hk. now rewrite Hk.
Qed.

Lemma resize_partial_failures_witness :
  Forall (fun c => is_space c = true) [newline] /\
  short_ok 80 = true /\ short_ok 24 = true /\
  (ioctl_ok (mk_answers false true true) = false ->
   handle_stdin 5 100 (StdinData (resize_msg 80 24 [newline]) (mk_answers false true true))
   = ([], Normal Continue)) /\
  (ioctl_ok (mk_answers false true true) = true -> kill_ok (mk_answers false true true) = false ->
   handle_stdin 5 100 (StdinData (resize_msg 80 24 [newline]) (mk_answers false true true))
   = ([ESetWinsize 5 (mk_winsize 24 80 0 0)], Normal Continue)).
Proof.
  split; [repeat constructor|]. split; [reflexivity|]. split; [reflexivity|].
  apply (resize_partial_failures 5 100 80 24 [newline] (mk_answers false true true));
    [repeat constructor | reflexivity | reflexivity].
Defined.



(** ** Composition of passes and the session's outcome *)

Lemma resize_effects_not_forwarded (master pid : Z) (data : bytes) (a : os_answers) :
  forwarded (Loop.resize_effects master pid data a) = [].
Proof.
  unfold Loop.resize_effects, apply_resize.
  destruct (parse_resize data) as [[c r]|]; [|reflexivity].
  destruct (pack_hhhh r c 0 0); [|reflexivity].
  destruct (ioctl_ok a), (kill_ok a); reflexivity.
Qed.

Lemma forwarded_app (l1 l2 : list event) :
  forwarded (l1 ++ l2) = forwarded l1 ++ forwarded l2.
Proof. unfold forwarded. apply flat_map_app. Qed.

(** X9: passes compose: running the passes [pre] (no interrupt among them)
    and then [post] has the effects of [pre] followed by those of [post],
    and ends as [post] ends.  No I/O error in a pass stops the loop. *)
Theorem multiplex_app (master pid : Z) (pre post : list iteration) :
  Forall (fun i => i <> Interrupt) pre ->
  multiplex master pid (pre ++ post) =
  (fst (multiplex master pid pre) ++ fst (multiplex master pid post),
   snd (multiplex master pid post)).
Proof.
  induction 1 as [|[|si mi] rest Hi _ IH]; [|congruence|].
  - simpl. destruct (multiplex master pid post); reflexivity.
  - simpl. destruct (Loop.for_ready_ok master pid si mi) as (l & E & _).
    unfold bind. rewrite E, IH. simpl.
    destruct (multiplex master pid rest). simpl. now rewrite app_assoc.
Qed.

Lemma multiplex_app_witness :
  Forall (fun i => i <> Interrupt) [Ready (Some StdinReadError) (Some MasterReadError)] /\
  multiplex 5 100 ([Ready (Some StdinReadError) (Some MasterReadError)] ++
                   [Ready None (Some (MasterData (b "ok") true))]) =
  (fst (multiplex 5 100 [Ready (Some StdinReadError) (Some MasterReadError)]) ++
   fst (multiplex 5 100 [Ready None (Some (MasterData (b "ok") true))]),
   snd (multiplex 5 100 [Ready None (Some (MasterData (b "ok") true))])).
Proof.
  assert (H : Forall (fun i => i <> Interrupt)
                [Ready (Some StdinReadError) (Some MasterReadError)])
    by (repeat constructor; discriminate).
  split; [exact H | exact (multiplex_app 5 100 _ _ H)].
Defined.

(** X12: the slave descriptor is closed right after the child is spawned,
    before any I/O, and never again. *)
Theorem slave_closed_once_after_spawn (env : session_env) (cmd : list string)
    (cwd : string) (master slave pid : Z) :
  openpty_result env = Some (master, slave) -> popen_result env = Some pid ->
  master <> slave ->
  exists rest,
    fst (create_pty_session env cmd cwd) =
    [EOpenPty master slave; ESpawn cmd cwd pid; ECloseFd slave] ++ rest /\
    ~ In (ECloseFd slave) rest.
Proof.
  intros Hpty Hpid Hms.
  rewrite (Loop.session_events env cmd cwd master slave pid Hpty Hpid).
  eexists; split; [reflexivity|].
  pose proof (Session.guarded_loop_events master pid (script env) (sigint_ok env)) as F.
  rewrite Forall_forall in F. rewrite Loop.teardown_events.
  intros Hin. apply in_app_iff in Hin as [Hin | Hin].
  - destruct (F _ Hin) as [Hl | Hl]; simpl in Hl; [exact Hl | discriminate].
  - destruct (close_ok env), (terminate_ok env); simpl in Hin; intuition congruence.
Qed.

Lemma slave_closed_once_after_spawn_witness :
  openpty_result (env_with [] true true) = Some (5, 6) /\
  popen_result (env_with [] true true) = Some 100 /\ 5 <> 6 /\
  exists rest,
    fst (create_pty_session (env_with [] true true) sh_l "/tmp"%string) =
    [EOpenPty 5 6; ESpawn sh_l "/tmp"%string 100; ECloseFd 6] ++ rest /\
    ~ In (ECloseFd 6) rest.
Proof.
  split; [reflexivity|]. split; [reflexivity|]. split; [lia|].
  apply (slave_closed_once_after_spawn (env_with [] true true) sh_l "/tmp"%string 5 6 100);
    [reflexivity | reflexivity | lia].
Defined.

(** X13: what the child writes reaches stdout unchanged and in order:
    over passes in which only the master is readable, every non-empty chunk
    is written to stdout and immediately flushed, and empty chunks leave no
    trace. *)
Theorem master_output_relayed (master pid : Z) (ds : list bytes) :
  fst (multiplex master pid (map (fun d => Ready None (Some (MasterData d true))) ds)) =
  flat_map (fun d => match d with [] => [] | _ => [EWriteStdout d; EFlushStdout] end) ds.
Proof.
  induction ds as [|d ds IH]; [reflexivity|].
  cbn [map multiplex]. unfold bind.
  destruct (multiplex master pid (map (fun d => Ready None (Some (MasterData d true))) ds))
    as [l r]. simpl in IH. subst l.
  destruct d; reflexivity.
Qed.

(** X14: what is typed reaches the child unchanged and in order, minus
    the resize messages: over passes in which only stdin is readable and
    every call succeeds, the bytes written to the master are the chunks
    that do not begin with [###RESIZE###], concatenated. *)
Theorem stdin_input_forwarded (master pid : Z) (ds : list bytes) :
  forwarded (fst (multiplex master pid
                    (map (fun d => Ready (Some (StdinData d ok_answers)) None) ds))) =
  concat (map (fun d => if startswith RESIZE_PREFIX d then [] else d) ds).
Proof.
  induction ds as [|d ds IH]; [reflexivity|].
  cbn [map multiplex concat]. unfold bind.
  destruct (Loop.for_ready_ok master pid (Some (StdinData d ok_answers)) None) as (l0 & E0 & _).
  rewrite E0.
  destruct (multiplex master pid (map (fun d => Ready (Some (StdinData d ok_answers)) None) ds))
    as [l r]. cbn [fst] in IH |- *. rewrite forwarded_app, IH. f_equal.
  assert (Hl0 : l0 = fst (for_ready master pid (Some (StdinData d ok_answers)) None))
    by now rewrite E0.
  rewrite Hl0. clear.
  destruct (startswith RESIZE_PREFIX d) eqn:Hs.
  - unfold for_ready. rewrite Loop.handle_stdin_sentinel by exact Hs. cbn [fst bind]. unfold ret. cbn [fst].
    rewrite ?app_nil_r. apply resize_effects_not_forwarded.
  - destruct d as [|c d]; [reflexivity|].
    unfold for_ready, handle_stdin, stdin_body. rewrite Hs. simpl. now rewrite app_nil_r.
Qed.
